(** * chiro.js — [src/structures/Manager.ts]

    A shallow embedding of the [Manager] class: the values it receives from
    the Nexus backend and from the Discord gateway, the search-result
    resolver, the player registry, the one-shot initialisation and the
    voice-state forwarder, followed by the properties proved about them. *)

From Stdlib Require Import ZArith String List Bool Lia.
From stdpp Require Import base option gmap strings list.

Import ListNotations.
Set Warnings "-register-all".
Open Scope string_scope.
Open Scope Z_scope.

(** ** JavaScript values

    [res], [data], [requester] and the option bags are typed [any] (or as
    interfaces that are erased at run time), so they are modelled as untyped
    JavaScript values.  Objects keep their own properties in insertion
    order.  [VFun] stands for a callable host value (the [send] callback of
    the options) that the Manager never calls or inspects.  Numbers are the
    integral ones: the Manager only ever tests a [length] against zero and
    copies every other number through untouched. *)

Inductive value : Type :=
| VUndefined
| VNull
| VBool (b : bool)
| VNum (n : Z)
| VStr (s : string)
| VArr (elems : list value)
| VObj (props : list (string * value))
| VFun (name : string).

(** The own properties of an object. *)
Abbreviation object := (list (string * value)).

(** Exceptions the code under study can raise. *)
Inductive exn : Type :=
| TypeError (msg : string)
| RequestError (status : Z).

(** A computation that either completes with a value or throws. *)
Inductive result (A : Type) : Type :=
| Ok (a : A)
| Throw (e : exn).
Arguments Ok {A} a.
Arguments Throw {A} e.

Definition rbind {A B} (r : result A) (k : A -> result B) : result B :=
  match r with
  | Ok a => k a
  | Throw e => Throw e
  end.

Declare Scope js_scope.
Delimit Scope js_scope with js.
Notation "'let?' x ':=' r 'in' k" := (rbind r (fun x => k))
  (at level 10, x name, r at level 100, k at level 200) : js_scope.
Open Scope js_scope.

(** [mapM]: [Array.prototype.map] with a callback that may throw; the first
    exception aborts the traversal. *)
Fixpoint mapM {A B} (f : A -> result B) (l : list A) : result (list B) :=
  match l with
  | [] => Ok []
  | x :: xs =>
      let? y := f x in
      let? ys := mapM f xs in
      Ok (y :: ys)
  end.

(** *** Truthiness, [||], [===] *)

(** ToBoolean. *)
Definition truthy (v : value) : bool :=
  match v with
  | VUndefined | VNull => false
  | VBool b => b
  | VNum n => negb (n =? 0)
  | VStr s => negb (String.eqb s "")
  | VArr _ | VObj _ | VFun _ => true
  end.

(** [a || b]: the left operand when it is truthy, the right one otherwise. *)
Definition js_or (a b : value) : value :=
  if truthy a then a else b.

(** [v === "s"] against a string literal: only a string with the same
    characters is strictly equal to it. *)
Definition strict_eq_str (v : value) (s : string) : bool :=
  match v with
  | VStr s' => String.eqb s' s
  | _ => false
  end.

(** [undefined] and [null]: the two values that have no properties. *)
Definition nullish (v : value) : bool :=
  match v with
  | VUndefined | VNull => true
  | _ => false
  end.

(** *** Property access *)

Fixpoint obj_get (o : object) (k : string) : value :=
  match o with
  | [] => VUndefined
  | (k', v) :: rest => if String.eqb k' k then v else obj_get rest k
  end.

(** [o[k] = v]: overwrite in place when [k] is already an own property,
    append otherwise. *)
Fixpoint obj_set (o : object) (k : string) (v : value) : object :=
  match o with
  | [] => [(k, v)]
  | (k', v') :: rest =>
      if String.eqb k' k then (k', v) :: rest
      else (k', v') :: obj_set rest k v
  end.

Definition string_of_ascii (c : Ascii.ascii) : string := String c EmptyString.

(** [v.k] for the property names the Manager reads.  Reading a property of
    [undefined] or [null] throws; arrays and strings expose [length]; every
    other miss is [undefined].  (None of the names read by the Manager is
    inherited from [Object.prototype], and [map] is handled by [js_map].) *)
Definition get_prop (v : value) (k : string) : result value :=
  match v with
  | VUndefined => Throw (TypeError "Cannot read properties of undefined")
  | VNull => Throw (TypeError "Cannot read properties of null")
  | VObj o => Ok (obj_get o k)
  | VArr l =>
      if String.eqb k "length" then Ok (VNum (Z.of_nat (List.length l)))
      else Ok VUndefined
  | VStr s =>
      if String.eqb k "length" then Ok (VNum (Z.of_nat (String.length s)))
      else Ok VUndefined
  | VBool _ | VNum _ | VFun _ => Ok VUndefined
  end.

(** [v[0]]. *)
Definition get_first (v : value) : result value :=
  match v with
  | VUndefined => Throw (TypeError "Cannot read properties of undefined")
  | VNull => Throw (TypeError "Cannot read properties of null")
  | VObj o => Ok (obj_get o "0")
  | VArr l => Ok (List.hd VUndefined l)
  | VStr s =>
      match s with
      | EmptyString => Ok VUndefined
      | String c _ => Ok (VStr (string_of_ascii c))
      end
  | VBool _ | VNum _ | VFun _ => Ok VUndefined
  end.

(** [v.map(f)]: only arrays carry [map]; on [undefined]/[null] the property
    read throws, on anything else the call of a non-function does. *)
Definition js_map (v : value) (f : value -> result value) : result value :=
  match v with
  | VArr l => let? l' := mapM f l in Ok (VArr l')
  | VUndefined => Throw (TypeError "Cannot read properties of undefined")
  | VNull => Throw (TypeError "Cannot read properties of null")
  | _ => Throw (TypeError "map is not a function")
  end.

(** ** Search results *)

Inductive SearchResultType : Type := NO_RESULT | SEARCH_RESULT | PLAYLIST.

Record PlaylistInfo : Type := {
  pl_title : value;
  pl_id : value;
  pl_url : value;
  pl_author : value;
  pl_extractor : value
}.

Record SearchResult : Type := {
  type : SearchResultType;
  playlist : option PlaylistInfo;
  tracks : value;
  requester : value
}.

(** [Manager.buildTrackData] (lines 170-182). *)
Definition buildTrackData (data requester : value) : result value :=
  let? url := get_prop data "url" in
  let? title := get_prop data "title" in
  let? thumbnail := get_prop data "thumbnail" in
  let? duration := get_prop data "duration" in
  let? author := get_prop data "author" in
  let? created_at := get_prop data "created_at" in
  let? extractor := get_prop data "extractor" in
  Ok (VObj [("url", url); ("title", title); ("thumbnail", thumbnail);
            ("duration", duration); ("author", author);
            ("created_at", created_at); ("extractor", extractor);
            ("requested_by", requester)]).

(** The [else] block of [resolveTrackData] (lines 143-159): playlist
    metadata from [res.results[0]], its [tracks] rebuilt one by one. *)
Definition playlist_result (results requester : value) : result SearchResult :=
  let? first := get_first results in
  let? title := get_prop first "title" in
  let? id := get_prop first "id" in
  let? url := get_prop first "url" in
  let? author := get_prop first "author" in
  let? extractor := get_prop first "extractor" in
  let? nested := get_prop first "tracks" in
  let? built := js_map nested (fun track => buildTrackData track requester) in
  Ok {| type := PLAYLIST;
        playlist := Some {| pl_title := title; pl_id := id; pl_url := url;
                            pl_author := author;
                            pl_extractor := extractor |};
        tracks := built; requester := requester |}.

(** [Manager.resolveTrackData] (lines 127-160).  The test on line 136 is
    [res.identifier === "ytsearch" || "scsearch"], that is
    [(res.identifier === "ytsearch") || "scsearch"]. *)
Definition resolveTrackData (res requester : value) : result SearchResult :=
  let? results := get_prop res "results" in
  let? len := get_prop results "length" in
  if negb (truthy len) then
    Ok {| type := NO_RESULT; playlist := None;
          tracks := VArr []; requester := requester |}
  else
    let? identifier := get_prop res "identifier" in
    if truthy (js_or (VBool (strict_eq_str identifier "ytsearch"))
                     (VStr "scsearch")) then
      Ok {| type := SEARCH_RESULT; playlist := None;
            tracks := results; requester := requester |}
    else
      playlist_result results requester.

(** ** The Manager and its collaborators *)

Abbreviation Snowflake := string.

(** A reference to a [Player] instance: two references are the same
    instance exactly when they are equal. *)
Abbreviation ref := nat.

(** [PlayerOptions] is declared in [Static/Interfaces]; the Manager reads
    only [guild] and hands the rest to the [Player] constructor. *)
Record PlayerOptions : Type := {
  guild : Snowflake;
  settings : object
}.

Record Player : Type := {
  player_options : PlayerOptions
}.

(** The state of the [Node] the Manager talks to.  [socket] is [None] while
    the handle is null and otherwise lists the frames written to it, oldest
    first; [connect_calls] counts the invocations of [connect]. *)
Record Node : Type := {
  node_options : value;
  socket : option (list string);
  connect_calls : nat
}.

(** The fields of a [Manager] instance.  [players] maps a guild to the
    instance registered for it and [heap] holds the instances. *)
Record Manager : Type := {
  players : gmap Snowflake ref;
  heap : gmap ref Player;
  node : option Node;
  options : object;
  initiated : bool;
  access_token : value
}.

Definition set_players (ps : gmap Snowflake ref) (m : Manager) : Manager :=
  {| players := ps; heap := heap m; node := node m; options := options m;
     initiated := initiated m; access_token := access_token m |}.

Definition set_heap (h : gmap ref Player) (m : Manager) : Manager :=
  {| players := players m; heap := h; node := node m; options := options m;
     initiated := initiated m; access_token := access_token m |}.

Definition set_node (n : option Node) (m : Manager) : Manager :=
  {| players := players m; heap := heap m; node := n; options := options m;
     initiated := initiated m; access_token := access_token m |}.

Definition set_options (o : object) (m : Manager) : Manager :=
  {| players := players m; heap := heap m; node := node m; options := o;
     initiated := initiated m; access_token := access_token m |}.

Definition set_initiated (b : bool) (m : Manager) : Manager :=
  {| players := players m; heap := heap m; node := node m;
     options := options m; initiated := b;
     access_token := access_token m |}.

(** *** Methods as state transformers

    A method runs on the current fields of [this], leaves new fields behind
    and either returns or throws; what was assigned before a throw stays
    assigned. *)

Definition M (A : Type) : Type := Manager -> result A * Manager.

Definition ret {A} (a : A) : M A := fun m => (Ok a, m).

Definition throw {A} (e : exn) : M A := fun m => (Throw e, m).

Definition bind {A B} (c : M A) (k : A -> M B) : M B :=
  fun m =>
    match c m with
    | (Ok a, m') => k a m'
    | (Throw e, m') => (Throw e, m')
    end.

Definition this : M Manager := fun m => (Ok m, m).

Definition modify (f : Manager -> Manager) : M unit := fun m => (Ok tt, f m).

Definition lift {A} (r : result A) : M A := fun m => (r, m).

Notation "'let*' x ':=' c 'in' k" := (bind c (fun x => k))
  (at level 10, x name, c at level 100, k at level 200) : js_scope.
Notation "'run' c 'in' k" := (bind c (fun _ => k))
  (at level 10, c at level 100, k at level 200) : js_scope.

Definition when (b : bool) (c : M unit) : M unit :=
  if b then c else ret tt.

(** Unfolds the plumbing of [M]. *)
Ltac run_M :=
  unfold bind, this, modify, lift, ret, throw, when; cbn [fst snd].

(** *** The [Node] collaborator

    [src/structures/Node.ts] is not among the sources; the two operations of
    it that the Manager triggers are taken from the specification. *)

(** Modelled from the spec: the [Node] constructor, missing from the
    sources.  "Exactly one Node Connection exists per orchestrator instance;
    it is constructed during orchestrator construction", through the "static
    registration of the orchestrator into session/connection constructors":
    the new node installs itself as the manager's [node], "DISCONNECTED
    immediately after construction", its socket handle still null. *)
Definition Node_constructor (nodeOptions : value) : M unit :=
  modify (set_node (Some {| node_options := nodeOptions;
                            socket := None;
                            connect_calls := 0 |})).

(** Modelled from the spec: [Node.connect], missing from the sources.
    "Opens the persistent socket using configured host/port/secret";
    "socket-level errors emit a notification but do not throw back to
    callers of makeRequest/connect".  The call is counted and the socket
    handle becomes live (an already live handle keeps its frames). *)
Definition Node_connect (n : Node) : Node :=
  {| node_options := node_options n;
     socket := Some (default [] (socket n));
     connect_calls := S (connect_calls n) |}.

(** [this.node.connect()]. *)
Definition node_connect : M unit :=
  let* m := this in
  match node m with
  | None => throw (TypeError "Cannot read properties of undefined")
  | Some n => modify (set_node (Some (Node_connect n)))
  end.

(** [this.node.socket.send(frame)]: [frame] is appended to what the live
    socket has been given; an absent node or a null handle throws. *)
Definition socket_send (frame : string) : M unit :=
  let* m := this in
  match node m with
  | None => throw (TypeError "Cannot read properties of undefined")
  | Some n =>
      match socket n with
      | None => throw (TypeError "Cannot read properties of null")
      | Some frames =>
          modify (set_node (Some {| node_options := node_options n;
                                    socket := Some (frames ++ [frame])%list;
                                    connect_calls := connect_calls n |}))
      end
  end.

(** *** Construction (lines 68-80) *)

Definition default_node : value :=
  VObj [("identifier", VStr "default"); ("host", VStr "localhost")].

(** [{ ...base, ...o }] onto an existing literal: the own properties of [o]
    are assigned in order, a later one replacing an earlier one of the same
    name. *)
Definition obj_spread (base o : object) : object :=
  fold_left (fun acc kv => obj_set acc (fst kv) (snd kv)) o base.

(** Whether [k] is an own property of the object. *)
Definition has_own (o : object) (k : string) : bool :=
  existsb (fun kv => String.eqb (fst kv) k) o.

(** The fields of an instance before the constructor body runs. *)
Definition fresh_manager : Manager :=
  {| players := ∅; heap := ∅; node := None; options := [];
     initiated := false; access_token := VUndefined |}.

(** [new Manager(options)].  [Player.init(this)] and
    [Node.initStaticManager(this)] hand the instance to the two classes,
    which is how their constructors reach it; [ManagerOptions] is an object
    type, so the argument is given by its own properties. *)
Definition constructor (opts : object) : M unit :=
  run modify (set_options (obj_spread [("node", default_node)] opts)) in
  let* m := this in
  let node_opts := obj_get (options m) "node" in
  when (truthy node_opts) (Node_constructor node_opts).

Definition new_Manager (opts : object) : Manager :=
  snd (constructor opts fresh_manager).

(** *** [init] (lines 90-98) *)

Definition init (clientID : value) : M unit :=
  let* m := this in
  if negb (initiated m) then
    run when (truthy clientID)
          (modify (fun m => set_options (obj_set (options m) "clientID" clientID) m)) in
    run node_connect in
    modify (set_initiated true)
  else ret tt.

(** Successive [init] calls on one instance, each on the fields the previous
    one left behind, whether it returned or threw. *)
Fixpoint init_all (clientIDs : list value) (m : Manager) : Manager :=
  match clientIDs with
  | [] => m
  | c :: cs => init_all cs (snd (init c m))
  end.

(** How often [connect] has been invoked on the manager's node. *)
Definition connects (m : Manager) : nat :=
  match node m with
  | Some n => connect_calls n
  | None => 0%nat
  end.

(** *** [search] (lines 110-116) *)

Record SearchQuery : Type := {
  query : string;
  identifier : option string
}.

(** [searchQuery.identifier || 'ytsearch']. *)
Definition identifier_or_default (q : SearchQuery) : string :=
  match identifier q with
  | Some s => if String.eqb s "" then "ytsearch" else s
  | None => "ytsearch"
  end.

Section Search.
(** The platform's [encodeURIComponent]. *)
Variable encodeURIComponent : string -> string.
(** [node.makeRequest(method, path).then(res => res.json())]: what the
    backend answers, or the rejection. *)
Variable makeRequest : Node -> string -> string -> result value.

Definition search_path (q : SearchQuery) : string :=
  "api/tracks/search?query=" ++ encodeURIComponent (query q)
    ++ "&identifier=" ++ identifier_or_default q.

Definition search (searchQuery : SearchQuery) (requester : value)
  : M SearchResult :=
  let* m := this in
  match node m with
  | None => throw (TypeError "Cannot read properties of undefined")
  | Some n =>
      let* response := lift (makeRequest n "GET" (search_path searchQuery)) in
      lift (resolveTrackData response requester)
  end.
End Search.

(** *** The player registry (lines 190-204) *)

Section Registry.
(** [new Player(options)]: the class lives in [src/structures/Player.ts];
    [create] is written against whatever that constructor does. *)
Variable new_Player : PlayerOptions -> M ref.

Definition create (opts : PlayerOptions) : M ref :=
  let* m := this in
  match players m !! guild opts with
  | Some p => ret p
  | None => new_Player opts
  end.
End Registry.

Definition get (g : Snowflake) : M (option ref) :=
  let* m := this in ret (players m !! g).

(** Modelled from the spec: the [Player] constructor, missing from the
    sources.  "Construct a new Session from options, insert it keyed by
    guild ID, and return it": a new instance is allocated and registered
    under [options.guild] in the manager's [players]. *)
Definition Player_constructor (opts : PlayerOptions) : M ref :=
  let* m := this in
  let p := fresh (dom (heap m)) in
  run modify (set_heap (<[p := {| player_options := opts |}]> (heap m))) in
  run modify (fun m => set_players (<[guild opts := p]> (players m)) m) in
  ret p.

(** *** [updateVoiceState] (lines 220-234) *)

(** [["VOICE_SERVER_UPDATE", "VOICE_STATE_UPDATE"].includes(v)]. *)
Definition voice_tags : list string :=
  ["VOICE_SERVER_UPDATE"; "VOICE_STATE_UPDATE"].

Definition includes (tags : list string) (v : value) : bool :=
  existsb (strict_eq_str v) tags.

Section Voice.
(** The platform's [JSON.stringify]. *)
Variable JSON_stringify : value -> string.

Definition updateVoiceState (data : value) : M unit :=
  if negb (truthy data) then ret tt
  else
    let* t := lift (get_prop data "t") in
    if negb (includes voice_tags (js_or t (VStr ""))) then ret tt
    else
      run when (strict_eq_str t "VOICE_SERVER_UPDATE")
            (socket_send (JSON_stringify data)) in
      when (strict_eq_str t "VOICE_STATE_UPDATE")
        (socket_send (JSON_stringify data)).
End Voice.

(** *** [destroyNode] (lines 208-210) *)

Section Destroy.
(** [Node.destroy] lives in [src/structures/Node.ts]; [destroyNode] is
    written against whatever that method does, to the node or through its
    back-reference to the manager, and whether it returns or throws. *)
Variable Node_destroy : Node -> M unit.

Definition destroyNode : M unit :=
  let* m := this in
  match node m with
  | None => throw (TypeError "Cannot read properties of undefined")
  | Some n => Node_destroy n
  end.
End Destroy.

(** *** Forwarding a stream of gateway events

    The documented use of [updateVoiceState] is
    [client.on('raw', d => manager.updateVoiceState(d))]: every raw event is
    handed over, one after the other. *)

Fixpoint forward_all (JSON_stringify : value -> string) (events : list value)
  : M unit :=
  match events with
  | [] => ret tt
  | d :: rest =>
      run updateVoiceState JSON_stringify d in
      forward_all JSON_stringify rest
  end.

(** An event object whose [t] is one of the two voice tags. *)
Definition is_voice_event (data : value) : bool :=
  match data with
  | VObj o =>
      match obj_get o "t" with
      | VStr s => existsb (String.eqb s) voice_tags
      | _ => false
      end
  | _ => false
  end.

(** The node [n] with [frames] as what its live socket has been given. *)
Definition with_frames (n : Node) (frames : list string) : Node :=
  {| node_options := node_options n; socket := Some frames;
     connect_calls := connect_calls n |}.

(** ** Sample inputs *)

Definition userA : value :=
  VObj [("id", VStr "80351110224678912"); ("username", VStr "userA")].

Definition track1 : value :=
  VObj [("url", VStr "u1"); ("title", VStr "t1"); ("duration", VNum 215);
        ("author", VStr "a1"); ("created_at", VStr "2021-05-01");
        ("extractor", VStr "youtube")].

Definition track2 : value :=
  VObj [("url", VStr "u2"); ("title", VStr "t2"); ("duration", VNum 187);
        ("author", VStr "a2"); ("created_at", VStr "2021-06-11");
        ("extractor", VStr "youtube")].

(** A flat search answer, as in the example of the specification. *)
Definition flat_response : value :=
  VObj [("identifier", VStr "ytsearch"); ("results", VArr [track1])].

(** A playlist answer: the identifier is neither search tag and the only
    result carries the nested [tracks]. *)
Definition playlist_entry : value :=
  VObj [("title", VStr "lofi mix"); ("id", VStr "PL42");
        ("url", VStr "https://example.org/playlist?list=PL42");
        ("author", VStr "dj"); ("extractor", VStr "youtube");
        ("tracks", VArr [track1; track2])].

Definition playlist_response : value :=
  VObj [("identifier", VStr "ytplaylist"); ("results", VArr [playlist_entry])].

Definition empty_response : value :=
  VObj [("identifier", VStr "scsearch"); ("results", VArr [])].

(** A backend that answers every request with the same body. *)
Definition answering (body : value) : Node -> string -> string -> result value :=
  fun _ _ _ => Ok body.

(** The options of the class's own documentation example. *)
Definition doc_node : object :=
  [("host", VStr "localhost"); ("port", VNum 3000);
   ("password", VStr "MySecurePassword")].

Definition doc_options : object :=
  [("node", VObj doc_node); ("send", VFun "send")].

(** A connected manager: built from the documented options and initialised. *)
Definition doc_manager : Manager :=
  snd (init (VStr "266241948824764416") (new_Manager doc_options)).

(** Its node: one [connect], a live socket with nothing written yet. *)
Definition doc_node_connected : Node :=
  {| node_options := VObj doc_node; socket := Some []; connect_calls := 1 |}.

Definition voice_state_event : value :=
  VObj [("t", VStr "VOICE_STATE_UPDATE"); ("s", VNum 7); ("op", VNum 0);
        ("d", VObj [("guild_id", VStr "41771983423143937");
                    ("channel_id", VStr "127121515262115840");
                    ("user_id", VStr "80351110224678912")])].

Definition guild_create_event : value :=
  VObj [("t", VStr "GUILD_CREATE"); ("s", VNum 2); ("op", VNum 0);
        ("d", VObj [("id", VStr "41771983423143937")])].

(** A stand-in serializer for running the forwarder on the samples: it
    renders the event tag only. *)
Definition tag_only (v : value) : string :=
  match get_prop v "t" with
  | Ok (VStr s) => "{t:" ++ s ++ "}"
  | _ => "{}"
  end.

(** A [Player] constructor that allocates the instance and registers it
    nowhere. *)
Definition unregistered_Player (opts : PlayerOptions) : M ref :=
  let* m := this in
  let p := fresh (dom (heap m)) in
  run modify (set_heap (<[p := {| player_options := opts |}]> (heap m))) in
  ret p.

(** A [Node.destroy] that closes the socket and drops the handle. *)
Definition close_socket (n : Node) : M unit :=
  modify (set_node (Some {| node_options := node_options n; socket := None;
                            connect_calls := connect_calls n |})).

Definition voice_server_event : value :=
  VObj [("t", VStr "VOICE_SERVER_UPDATE"); ("s", VNum 8); ("op", VNum 0);
        ("d", VObj [("token", VStr "my_token");
                    ("guild_id", VStr "41771983423143937");
                    ("endpoint", VStr "smart.loyal.discord.gg")])].

(** A backend error body: no [results] at all. *)
Definition error_response : value :=
  VObj [("error", VStr "Unauthorized")].

(** Options whose [node] is explicitly [null]. *)
Definition null_node_options : object :=
  [("node", VNull); ("send", VFun "send")].

(** * Properties *)

(** ** The resolver *)

(** The test of line 136 succeeds whatever the identifier is. *)
Lemma identifier_test_always_true (v : value) :
  truthy (js_or (VBool (strict_eq_str v "ytsearch")) (VStr "scsearch")) = true.
Proof.
  unfold js_or. simpl.
  destruct (strict_eq_str v "ytsearch"); reflexivity.
Qed.

Lemma length_truthy_nonempty (l : list value) :
  l <> [] -> truthy (VNum (Z.of_nat (List.length l))) = true.
Proof.
  intros Hne. destruct l as [|x xs]; [congruence|].
  reflexivity.
Qed.

Lemma array_length (l : list value) :
  get_prop (VArr l) "length" = Ok (VNum (Z.of_nat (List.length l))).
Proof. reflexivity. Qed.

(** A response that has a [results] property is not [undefined] or [null],
    so its [identifier] can be read. *)
Lemma get_prop_total (v : value) (k k' : string) (w : value) :
  get_prop v k = Ok w -> exists w', get_prop v k' = Ok w'.
Proof.
  destruct v; simpl; intros H; try discriminate; eauto;
    destruct (String.eqb k' "length"); eauto.
Qed.

Lemma mapM_length {A B} (f : A -> result B) (l : list A) (l' : list B) :
  mapM f l = Ok l' -> List.length l' = List.length l.
Proof.
  revert l'. induction l as [|x xs IH]; simpl; intros l' H.
  - injection H as <-. reflexivity.
  - destruct (f x) as [y|e]; simpl in H; [|discriminate].
    destruct (mapM f xs) as [ys|e]; simpl in H; [|discriminate].
    injection H as <-. simpl. f_equal. apply IH. reflexivity.
Qed.

(** Every element [mapM] produced comes from the element at the same place. *)
Lemma mapM_Forall2 {A B} (f : A -> result B) (l : list A) (l' : list B) :
  mapM f l = Ok l' -> Forall2 (fun x y => f x = Ok y) l l'.
Proof.
  revert l'. induction l as [|x xs IH]; simpl; intros l' H.
  - injection H as <-. constructor.
  - destruct (f x) as [y|e] eqn:Hy; simpl in H; [|discriminate].
    destruct (mapM f xs) as [ys|e]; simpl in H; [|discriminate].
    injection H as <-. constructor; [exact Hy|]. apply IH. reflexivity.
Qed.

Lemma mapM_all {A B} (f : A -> result B) (P : B -> Prop)
    (l : list A) (l' : list B) :
  (forall x y, f x = Ok y -> P y) -> mapM f l = Ok l' -> Forall P l'.
Proof.
  intros HP H. apply mapM_Forall2 in H.
  induction H as [|x y xs ys Hxy _ IH]; constructor; eauto.
Qed.

Lemma mapM_defined {A B} (f : A -> result B) (l : list A) :
  Forall (fun x => exists y, f x = Ok y) l -> exists l', mapM f l = Ok l'.
Proof.
  induction 1 as [|x xs [y Hy] _ [ys Hys]]; simpl.
  - eauto.
  - rewrite Hy, Hys. simpl. eauto.
Qed.

(** Anything but [undefined] and [null] can be asked for a property. *)
Lemma get_prop_defined (v : value) (k : string) :
  nullish v = false -> exists w, get_prop v k = Ok w.
Proof.
  destruct v; simpl; intros H; try discriminate; eauto;
    destruct (String.eqb k "length"); eauto.
Qed.

(** [buildTrackData] attaches the requester to whatever track it is given. *)
Lemma buildTrackData_requested_by (data requester track : value) :
  buildTrackData data requester = Ok track ->
  get_prop track "requested_by" = Ok requester.
Proof.
  unfold buildTrackData. intros H.
  repeat match type of H with
         | context [get_prop data ?k] =>
             destruct (get_prop data k); simpl in H; [|discriminate]
         end.
  injection H as <-. reflexivity.
Qed.

Lemma buildTrackData_defined (data requester : value) :
  nullish data = false -> exists track, buildTrackData data requester = Ok track.
Proof.
  intros Hd. unfold buildTrackData.
  repeat match goal with
         | |- context [get_prop data ?k] =>
             let w := fresh "w" in
             destruct (get_prop_defined data k Hd) as [w ->]; cbn [rbind]
         end.
  eauto.
Qed.

(** X15: the playlist block of the resolver (lines 143-159), run on results
    whose first entry carries a [tracks] array without [undefined] or [null]
    elements, returns a [PLAYLIST] with as many tracks as that array has,
    each with the requester attached. *)
Lemma playlist_result_tracks
    (results first requester : value) (ts : list value) :
  get_first results = Ok first ->
  get_prop first "tracks" = Ok (VArr ts) ->
  Forall (fun t => nullish t = false) ts ->
  exists (info : PlaylistInfo) (built : list value),
    playlist_result results requester
    = Ok {| type := PLAYLIST; playlist := Some info;
            tracks := VArr built; requester := requester |}
    /\ List.length built = List.length ts
    /\ Forall (fun t => get_prop t "requested_by" = Ok requester) built.
Proof.
  intros Hfirst Htracks Hts.
  assert (exists built,
             mapM (fun track => buildTrackData track requester) ts = Ok built)
    as [built Hbuilt].
  { apply mapM_defined. eapply Forall_impl; [exact Hts|].
    intros t Ht. apply buildTrackData_defined. exact Ht. }
  unfold playlist_result. rewrite Hfirst. cbn [rbind].
  repeat match goal with
         | |- context [rbind (get_prop first ?k)] =>
             lazymatch k with
             | "tracks" => fail
             | _ =>
                 let w := fresh "w" in
                 destruct (get_prop_total first "tracks" k _ Htracks) as [w ->];
                 cbn [rbind]
             end
         end.
  rewrite Htracks. cbn [rbind js_map]. rewrite Hbuilt. cbn [rbind].
  eexists _, built. split; [reflexivity|].
  split; [exact (mapM_length _ _ _ Hbuilt)|].
  apply (mapM_all (fun track => buildTrackData track requester) _ ts built);
    [|exact Hbuilt].
  intros t b Hb. exact (buildTrackData_requested_by t requester b Hb).
Qed.

Lemma playlist_result_tracks_witness :
  exists (info : PlaylistInfo) (built : list value),
    playlist_result (VArr [playlist_entry]) userA
    = Ok {| type := PLAYLIST; playlist := Some info;
            tracks := VArr built; requester := userA |}
    /\ List.length built = List.length [track1; track2]
    /\ Forall (fun t => get_prop t "requested_by" = Ok userA) built.
Proof.
  apply (playlist_result_tracks (VArr [playlist_entry]) playlist_entry userA
           [track1; track2]).
  - reflexivity.
  - reflexivity.
  - repeat constructor.
Defined.

Example playlist_result_sample :
  exists info,
    playlist_result (VArr [playlist_entry]) userA
    = Ok {| type := PLAYLIST; playlist := Some info;
            tracks := VArr [VObj [("url", VStr "u1"); ("title", VStr "t1");
                                  ("thumbnail", VUndefined);
                                  ("duration", VNum 215); ("author", VStr "a1");
                                  ("created_at", VStr "2021-05-01");
                                  ("extractor", VStr "youtube");
                                  ("requested_by", userA)];
                            VObj [("url", VStr "u2"); ("title", VStr "t2");
                                  ("thumbnail", VUndefined);
                                  ("duration", VNum 187); ("author", VStr "a2");
                                  ("created_at", VStr "2021-06-11");
                                  ("extractor", VStr "youtube");
                                  ("requested_by", userA)]];
            requester := userA |}.
Proof. eexists. reflexivity. Qed.

(** The example of the specification: a flat answer comes back as it is. *)
Example search_flat_response :
  search (fun s => s) (answering flat_response)
         {| query := "lofi beats"; identifier := Some "ytsearch" |} userA
         doc_manager
  = (Ok {| type := SEARCH_RESULT; playlist := None;
           tracks := VArr [track1]; requester := userA |}, doc_manager).
Proof. reflexivity. Qed.

(** C1: on a playlist-shaped answer (identifier outside the two search tags,
    a nested [tracks] array with two tracks under [results[0]]) [search]
    does not produce a [PLAYLIST] of the two nested tracks: line 136 sends
    it down the flat branch, and the result is a [SEARCH_RESULT] whose
    tracks are the raw [results], one playlist entry with no
    [requested_by]. *)
Theorem search_playlist_response_is_flat :
  search (fun s => s) (answering playlist_response)
         {| query := "lofi mix"; identifier := Some "ytplaylist" |} userA
         doc_manager
  = (Ok {| type := SEARCH_RESULT; playlist := None;
           tracks := VArr [playlist_entry]; requester := userA |},
     doc_manager)
  /\ get_prop playlist_entry "requested_by" = Ok VUndefined.
Proof. split; reflexivity. Qed.

(** C2: a response whose [results] is a non-empty list resolves to a
    [SEARCH_RESULT] carrying that very list, whatever its [identifier]; in
    particular the result is never a [PLAYLIST]. *)
Theorem resolveTrackData_nonempty_is_search_result
    (res requester : value) (l : list value) :
  get_prop res "results" = Ok (VArr l) ->
  l <> [] ->
  resolveTrackData res requester
  = Ok {| type := SEARCH_RESULT; playlist := None;
          tracks := VArr l; requester := requester |}.
Proof.
  intros Hres Hne. unfold resolveTrackData.
  destruct (get_prop_total res "results" "identifier" _ Hres) as [ident Hid].
  rewrite Hres. cbn [rbind].
  rewrite array_length. cbn [rbind].
  rewrite (length_truthy_nonempty l Hne). cbn [negb].
  rewrite Hid. cbn [rbind].
  rewrite identifier_test_always_true. reflexivity.
Qed.

Lemma resolveTrackData_nonempty_is_search_result_witness :
  resolveTrackData playlist_response userA
  = Ok {| type := SEARCH_RESULT; playlist := None;
          tracks := VArr [playlist_entry]; requester := userA |}.
Proof.
  apply (resolveTrackData_nonempty_is_search_result
           playlist_response userA [playlist_entry]).
  - reflexivity.
  - discriminate.
Defined.

(** The resolver on an empty [results] list. *)
Lemma resolveTrackData_empty (res requester : value) :
  get_prop res "results" = Ok (VArr []) ->
  resolveTrackData res requester
  = Ok {| type := NO_RESULT; playlist := None;
          tracks := VArr []; requester := requester |}.
Proof.
  intros Hres. unfold resolveTrackData. rewrite Hres. reflexivity.
Qed.

(** C4: when the backend answers with an empty [results] list, [search]
    returns [NO_RESULT] with no tracks and the caller's requester, whatever
    the answer's [identifier] and whatever was asked; the manager is left as
    it was. *)
Theorem search_empty_results_is_no_result
    (encodeURIComponent : string -> string)
    (makeRequest : Node -> string -> string -> result value)
    (q : SearchQuery) (requester response : value) (m : Manager) (n : Node) :
  node m = Some n ->
  makeRequest n "GET" (search_path encodeURIComponent q) = Ok response ->
  get_prop response "results" = Ok (VArr []) ->
  search encodeURIComponent makeRequest q requester m
  = (Ok {| type := NO_RESULT; playlist := None;
           tracks := VArr []; requester := requester |}, m).
Proof.
  intros Hnode Hreq Hres.
  unfold search, bind, this, lift. rewrite Hnode, Hreq.
  rewrite (resolveTrackData_empty response requester Hres). reflexivity.
Qed.

Lemma search_empty_results_is_no_result_witness :
  search (fun s => s) (answering empty_response)
         {| query := "zzzz"; identifier := None |} userA doc_manager
  = (Ok {| type := NO_RESULT; playlist := None;
           tracks := VArr []; requester := userA |}, doc_manager).
Proof.
  apply (search_empty_results_is_no_result
           (fun s => s) (answering empty_response)
           {| query := "zzzz"; identifier := None |} userA empty_response
           doc_manager doc_node_connected); reflexivity.
Defined.

(** ** The player registry *)

Lemma create_existing (new_Player : PlayerOptions -> M ref)
    (opts : PlayerOptions) (m : Manager) (p : ref) :
  players m !! guild opts = Some p ->
  create new_Player opts m = (Ok p, m).
Proof. intros H. unfold create. run_M. rewrite H. reflexivity. Qed.

Lemma create_absent (new_Player : PlayerOptions -> M ref)
    (opts : PlayerOptions) (m : Manager) :
  players m !! guild opts = None ->
  create new_Player opts m = new_Player opts m.
Proof. intros H. unfold create. run_M. rewrite H. reflexivity. Qed.

Lemma Player_constructor_run (opts : PlayerOptions) (m : Manager) :
  Player_constructor opts m
  = (Ok (fresh (dom (heap m))),
     set_players (<[guild opts := fresh (dom (heap m))]> (players m))
       (set_heap (<[fresh (dom (heap m)) := {| player_options := opts |}]>
                    (heap m)) m)).
Proof. reflexivity. Qed.

(** The instance a constructor call allocates is none of the existing ones. *)
Lemma Player_constructor_fresh (opts : PlayerOptions) (m : Manager) :
  heap m !! fresh (dom (heap m)) = None.
Proof. apply not_elem_of_dom, is_fresh. Qed.

(** C3: two [create] calls for the same guild return the same instance.  The
    first call returns an instance [p] and leaves it registered under the
    guild (the one already there, or the one the constructor made from the
    first options); the second call returns [p] again and changes nothing,
    so the options it was given are dropped. *)
Theorem create_twice_same_instance
    (g : Snowflake) (s1 s2 : object) (m : Manager) :
  let first := create Player_constructor {| guild := g; settings := s1 |} m in
  exists p : ref,
    fst first = Ok p
    /\ players (snd first) !! g = Some p
    /\ heap (snd first) !! p
       = match players m !! g with
         | Some _ => heap m !! p
         | None => Some {| player_options := {| guild := g; settings := s1 |} |}
         end
    /\ create Player_constructor {| guild := g; settings := s2 |} (snd first)
       = (Ok p, snd first).
Proof.
  cbv zeta.
  destruct (players m !! g) as [p|] eqn:Hg.
  - exists p.
    rewrite (create_existing Player_constructor
               {| guild := g; settings := s1 |} m p Hg).
    cbn [fst snd]. repeat split; try assumption.
    apply create_existing. exact Hg.
  - rewrite (create_absent Player_constructor
               {| guild := g; settings := s1 |} m Hg).
    rewrite Player_constructor_run. cbn [fst snd guild].
    exists (fresh (dom (heap m))).
    repeat split.
    + cbn. apply lookup_insert_eq.
    + cbn. apply lookup_insert_eq.
    + apply create_existing. cbn. apply lookup_insert_eq.
Qed.

(** What [create] returned is what [get] finds afterwards. *)
Lemma get_after_create (opts : PlayerOptions) (m : Manager) :
  exists p,
    fst (create Player_constructor opts m) = Ok p
    /\ fst (get (guild opts) (snd (create Player_constructor opts m)))
       = Ok (Some p).
Proof.
  destruct (players m !! guild opts) as [p|] eqn:Hg.
  - exists p. rewrite (create_existing Player_constructor opts m p Hg).
    unfold get. run_M. rewrite Hg. auto.
  - rewrite (create_absent Player_constructor opts m Hg).
    rewrite Player_constructor_run. eexists. split; [reflexivity|].
    unfold get. run_M. cbn. rewrite lookup_insert_eq. reflexivity.
Qed.

(** Without the registration done by the constructor the second call makes
    a second instance: [create] does not register anything by itself. *)
Lemma create_unregistered_twice_differs :
  let opts := {| guild := "41771983423143937"; settings := [] |} in
  let first := create unregistered_Player opts fresh_manager in
  let second := create unregistered_Player opts (snd first) in
  fst first <> fst second /\ players (snd second) = ∅.
Proof. cbv zeta. split; [vm_compute; discriminate | reflexivity]. Qed.

(** C9: [create] itself inserts nothing into [players].  It either returns
    the registered instance and leaves the manager as it was, or it is
    exactly the constructor call; so with a constructor that leaves
    [players] alone, [players] is the same after [create]. *)
Theorem create_registers_nothing_itself
    (new_Player : PlayerOptions -> M ref) (opts : PlayerOptions)
    (m : Manager) :
  (forall o m0, players (snd (new_Player o m0)) = players m0) ->
  players (snd (create new_Player opts m)) = players m
  /\ (snd (create new_Player opts m) = m
      \/ create new_Player opts m = new_Player opts m).
Proof.
  intros Hframe.
  destruct (players m !! guild opts) as [p|] eqn:Hg.
  - rewrite (create_existing new_Player opts m p Hg). cbn [snd]. auto.
  - rewrite (create_absent new_Player opts m Hg). split; [apply Hframe|auto].
Qed.

Lemma create_registers_nothing_itself_witness :
  let opts := {| guild := "41771983423143937"; settings := [] |} in
  players (snd (create unregistered_Player opts fresh_manager))
  = players fresh_manager
  /\ (snd (create unregistered_Player opts fresh_manager) = fresh_manager
      \/ create unregistered_Player opts fresh_manager
         = unregistered_Player opts fresh_manager).
Proof.
  apply (create_registers_nothing_itself unregistered_Player
           {| guild := "41771983423143937"; settings := [] |} fresh_manager).
  intros o m0. reflexivity.
Defined.

(** ** Initialisation *)

Lemma init_when_initiated (c : value) (m : Manager) :
  initiated m = true -> init c m = (Ok tt, m).
Proof. intros H. unfold init. run_M. rewrite H. reflexivity. Qed.

(** A first call on a manager without a node: the client id is stored when
    truthy, then reading [this.node.connect] throws. *)
Lemma init_without_node (c : value) (m : Manager) :
  initiated m = false -> node m = None ->
  exists e, fst (init c m) = Throw e
            /\ node (snd (init c m)) = None
            /\ initiated (snd (init c m)) = false.
Proof.
  intros Hi Hn. unfold init, node_connect. run_M. rewrite Hi. cbn [negb].
  destruct (truthy c); cbn; rewrite Hn; cbn; eauto.
Qed.

(** A first call on a manager with a node. *)
Lemma init_with_node (c : value) (m : Manager) (n : Node) :
  initiated m = false -> node m = Some n ->
  init c m
  = (Ok tt,
     set_initiated true
       (set_node (Some (Node_connect n))
          (if truthy c then set_options (obj_set (options m) "clientID" c) m
           else m))).
Proof.
  intros Hi Hn. unfold init, node_connect. run_M. rewrite Hi. cbn [negb].
  destruct (truthy c); cbn; rewrite Hn; reflexivity.
Qed.

(** A call that returns leaves the manager initiated. *)
Lemma init_returned_initiated (c : value) (m : Manager) :
  fst (init c m) = Ok tt -> initiated (snd (init c m)) = true.
Proof.
  intros Hret.
  destruct (initiated m) eqn:Hi.
  - rewrite (init_when_initiated c m Hi). exact Hi.
  - destruct (node m) as [n|] eqn:Hn.
    + rewrite (init_with_node c m n Hi Hn). reflexivity.
    + destruct (init_without_node c m Hi Hn) as (e & He & _).
      rewrite He in Hret. discriminate.
Qed.

Lemma init_all_when_initiated (cs : list value) (m : Manager) :
  initiated m = true -> init_all cs m = m.
Proof.
  intros H. induction cs as [|c cs IH]; cbn [init_all]; [reflexivity|].
  rewrite (init_when_initiated c m H). exact IH.
Qed.

Lemma init_all_without_node (cs : list value) (m : Manager) :
  node m = None -> node (init_all cs m) = None.
Proof.
  revert m. induction cs as [|c cs IH]; intros m Hn; cbn [init_all].
  - exact Hn.
  - apply IH. destruct (initiated m) eqn:Hi.
    + rewrite (init_when_initiated c m Hi). exact Hn.
    + destruct (init_without_node c m Hi Hn) as (e & _ & Hn' & _). exact Hn'.
Qed.

(** Whatever the calls and whether they return or throw, a run of [init]
    calls invokes [connect] at most once. *)
Lemma init_all_connects_le (cs : list value) (m : Manager) :
  (connects (init_all cs m) <= S (connects m))%nat.
Proof.
  destruct cs as [|c cs]; cbn [init_all]; [lia|].
  destruct (initiated m) eqn:Hi.
  - rewrite (init_when_initiated c m Hi). cbn [snd].
    rewrite (init_all_when_initiated cs m Hi). lia.
  - destruct (node m) as [n|] eqn:Hn.
    + rewrite (init_with_node c m n Hi Hn). cbn [snd].
      rewrite init_all_when_initiated by reflexivity.
      unfold connects. rewrite Hn. destruct (truthy c); cbn; lia.
    + destruct (init_without_node c m Hi Hn) as (e & _ & Hn' & _).
      unfold connects at 1.
      rewrite (init_all_without_node cs _ Hn'). lia.
Qed.

Lemma constructor_options (opts : object) :
  options (new_Manager opts) = obj_spread [("node", default_node)] opts.
Proof.
  unfold new_Manager, constructor, Node_constructor. run_M.
  destruct (truthy _); reflexivity.
Qed.

Lemma new_Manager_connects (opts : object) : connects (new_Manager opts) = 0%nat.
Proof.
  unfold new_Manager, constructor, Node_constructor. run_M.
  destruct (truthy _); reflexivity.
Qed.

Lemma new_Manager_not_initiated (opts : object) :
  initiated (new_Manager opts) = false.
Proof.
  unfold new_Manager, constructor, Node_constructor. run_M.
  destruct (truthy _); reflexivity.
Qed.

(** C5: once an [init] call has returned, another call, whatever its
    argument, returns as well and makes no connection attempt, and so does
    any run of further calls; and over any run of [init] calls on one
    instance, returning or not, [connect] is invoked at most once. *)
Theorem init_connects_at_most_once
    (m : Manager) (c1 c2 : value) (cs : list value) :
  fst (init c1 m) = Ok tt ->
  let m1 := snd (init c1 m) in
  fst (init c2 m1) = Ok tt
  /\ connects (snd (init c2 m1)) = connects m1
  /\ connects (init_all cs m1) = connects m1
  /\ (forall (opts : object) (calls : list value),
        (connects (init_all calls (new_Manager opts)) <= 1)%nat)
  /\ (forall (m0 : Manager) (calls : list value),
        (connects (init_all calls m0) <= S (connects m0))%nat).
Proof.
  intros Hret m1.
  pose proof (init_returned_initiated c1 m Hret) as Hi. fold m1 in Hi.
  rewrite (init_when_initiated c2 m1 Hi).
  rewrite (init_all_when_initiated cs m1 Hi).
  repeat split.
  - intros opts calls.
    pose proof (init_all_connects_le calls (new_Manager opts)) as Hle.
    rewrite new_Manager_connects in Hle. exact Hle.
  - intros m0 calls. apply init_all_connects_le.
Qed.

Lemma init_connects_at_most_once_witness :
  let m := new_Manager doc_options in
  let m1 := snd (init (VStr "266241948824764416") m) in
  fst (init (VStr "999") m1) = Ok tt
  /\ connects (snd (init (VStr "999") m1)) = connects m1
  /\ connects (init_all [VUndefined; VStr "7"] m1) = connects m1
  /\ (forall (opts : object) (calls : list value),
        (connects (init_all calls (new_Manager opts)) <= 1)%nat)
  /\ (forall (m0 : Manager) (calls : list value),
        (connects (init_all calls m0) <= S (connects m0))%nat).
Proof.
  apply (init_connects_at_most_once (new_Manager doc_options)
           (VStr "266241948824764416") (VStr "999") [VUndefined; VStr "7"]).
  reflexivity.
Defined.

Lemma obj_get_obj_set_eq (o : object) (k : string) (v : value) :
  obj_get (obj_set o k v) k = v.
Proof.
  induction o as [|[k' v'] o IH]; cbn [obj_set obj_get].
  - rewrite String.eqb_refl. reflexivity.
  - destruct (String.eqb k' k) eqn:E; cbn [obj_get]; rewrite E; auto.
Qed.

Lemma obj_get_obj_set_ne (o : object) (k k0 : string) (v : value) :
  k <> k0 -> obj_get (obj_set o k v) k0 = obj_get o k0.
Proof.
  intros Hne. induction o as [|[k' v'] o IH]; cbn [obj_set obj_get].
  - apply String.eqb_neq in Hne. rewrite Hne. reflexivity.
  - destruct (String.eqb k' k) eqn:E; cbn [obj_get].
    + apply String.eqb_eq in E. subst k'.
      apply String.eqb_neq in Hne. rewrite Hne. reflexivity.
    + rewrite IH. reflexivity.
Qed.

(** C10: after a first [init] call that returned, later calls leave every
    field of the manager as that call left it, whatever their arguments:
    [initiated] is and stays true, and [options.clientID] is the first
    argument when that was truthy and what it was before otherwise. *)
Theorem init_later_calls_change_nothing
    (m : Manager) (c1 : value) (cs : list value) :
  initiated m = false ->
  fst (init c1 m) = Ok tt ->
  let m1 := snd (init c1 m) in
  init_all cs m1 = m1
  /\ Forall (fun c => init c m1 = (Ok tt, m1)) cs
  /\ initiated m1 = true
  /\ obj_get (options m1) "clientID"
     = (if truthy c1 then c1 else obj_get (options m) "clientID").
Proof.
  intros Hfirst Hret m1.
  pose proof (init_returned_initiated c1 m Hret) as Hi. fold m1 in Hi.
  split; [apply init_all_when_initiated; exact Hi|].
  split; [apply Forall_forall; intros c _; apply init_when_initiated; exact Hi|].
  split; [exact Hi|].
  subst m1. destruct (node m) as [n|] eqn:Hn.
  - rewrite (init_with_node c1 m n Hfirst Hn). cbn [snd].
    destruct (truthy c1); cbn; [apply obj_get_obj_set_eq|reflexivity].
  - destruct (init_without_node c1 m Hfirst Hn) as (e & He & _).
    rewrite He in Hret. discriminate.
Qed.

Lemma init_later_calls_change_nothing_witness :
  let m := new_Manager doc_options in
  let m1 := snd (init (VStr "266241948824764416") m) in
  init_all [VStr "999"; VUndefined; VStr "7"] m1 = m1
  /\ Forall (fun c => init c m1 = (Ok tt, m1)) [VStr "999"; VUndefined; VStr "7"]
  /\ initiated m1 = true
  /\ obj_get (options m1) "clientID"
     = (if truthy (VStr "266241948824764416")
        then VStr "266241948824764416"
        else obj_get (options m) "clientID").
Proof.
  apply (init_later_calls_change_nothing (new_Manager doc_options)
           (VStr "266241948824764416") [VStr "999"; VUndefined; VStr "7"]);
    reflexivity.
Defined.

(** ** Construction *)

Lemma has_own_cons (k' : string) (v' : value) (o : object) (k : string) :
  has_own ((k', v') :: o) k = String.eqb k' k || has_own o k.
Proof. reflexivity. Qed.

Lemma obj_get_absent (o : object) (k : string) :
  has_own o k = false -> obj_get o k = VUndefined.
Proof.
  induction o as [|[k' v'] o IH]; [reflexivity|].
  rewrite has_own_cons. cbn [obj_get].
  destruct (String.eqb k' k); cbn [orb]; [discriminate|exact IH].
Qed.

Lemma has_own_false_notin (o : object) (k : string) :
  k ∉ o.*1 -> has_own o k = false.
Proof.
  induction o as [|[k' v'] o IH]; intros Hnot; [reflexivity|].
  rewrite has_own_cons. rewrite fmap_cons in Hnot. cbn [fst] in Hnot.
  apply not_elem_of_cons in Hnot as [Hne Hnot].
  rewrite (IH Hnot), orb_false_r. apply String.eqb_neq. congruence.
Qed.

(** What a spread leaves under a name: the caller's property when there is
    one, the literal's otherwise. *)
Lemma obj_get_spread (base o : object) (k : string) :
  NoDup o.*1 ->
  obj_get (obj_spread base o) k
  = if has_own o k then obj_get o k else obj_get base k.
Proof.
  unfold obj_spread. revert base.
  induction o as [|[k' v'] o IH]; intros base Hnd; cbn [fold_left fst snd].
  - reflexivity.
  - rewrite fmap_cons in Hnd. cbn [fst] in Hnd.
    apply NoDup_cons in Hnd as [Hnotin Hnd].
    rewrite (IH _ Hnd), has_own_cons. cbn [obj_get].
    destruct (String.eqb k' k) eqn:E; cbn [orb].
    + apply String.eqb_eq in E. subst k'.
      rewrite (has_own_false_notin o k Hnotin).
      apply obj_get_obj_set_eq.
    + destruct (has_own o k); [reflexivity|].
      apply obj_get_obj_set_ne. apply String.eqb_neq. exact E.
Qed.

(** C6, as the code has it: the stored [node] options are the default
    object only when the caller's options have no [node] property at all; a
    [node] supplied by the caller is stored as given, without any fallback
    for the fields it leaves out. *)
Theorem constructor_node_default_is_whole_object (opts : object) :
  NoDup opts.*1 ->
  obj_get (options (new_Manager opts)) "node"
  = if has_own opts "node" then obj_get opts "node" else default_node.
Proof.
  intros Hnd. rewrite constructor_options.
  rewrite (obj_get_spread _ opts "node" Hnd). reflexivity.
Qed.

Lemma constructor_node_default_is_whole_object_witness :
  obj_get (options (new_Manager doc_options)) "node"
  = if has_own doc_options "node" then obj_get doc_options "node"
    else default_node.
Proof.
  apply (constructor_node_default_is_whole_object doc_options).
  apply (bool_decide_unpack _). vm_compute. reflexivity.
Defined.

(** C6, as stated, fails on the documented options: their [node] omits the
    identifier, and the stored node options have no identifier either. *)
Lemma constructor_identifier_not_defaulted :
  ~ (has_own doc_node "identifier" = false ->
     get_prop (obj_get (options (new_Manager doc_options)) "node") "identifier"
     = Ok (VStr "default")).
Proof. intros H. pose proof (H eq_refl) as Habs. discriminate Habs. Qed.

(** ** Voice-state forwarding *)

Lemma socket_send_live (frame : string) (m : Manager) (n : Node)
    (frames : list string) :
  node m = Some n -> socket n = Some frames ->
  socket_send frame m
  = (Ok tt,
     set_node (Some {| node_options := node_options n;
                       socket := Some (frames ++ [frame])%list;
                       connect_calls := connect_calls n |}) m).
Proof.
  intros Hn Hs. unfold socket_send. run_M. rewrite Hn, Hs. reflexivity.
Qed.

(** Only an object has a string under [t]. *)
Lemma tagged_is_object (data : value) (tag : string) :
  get_prop data "t" = Ok (VStr tag) ->
  exists o, data = VObj o /\ obj_get o "t" = VStr tag.
Proof.
  destruct data; cbn; intros H; try discriminate.
  exists props. split; [reflexivity|]. injection H as H. exact H.
Qed.

(** C7: an event whose [t] is one of the two voice tags makes
    [updateVoiceState] write exactly one frame to the node's live socket,
    the serialization of the whole event; nothing else changes and the call
    returns. *)
Theorem updateVoiceState_forwards_once
    (JSON_stringify : value -> string) (data : value) (tag : string)
    (m : Manager) (n : Node) (frames : list string) :
  get_prop data "t" = Ok (VStr tag) ->
  tag = "VOICE_STATE_UPDATE" \/ tag = "VOICE_SERVER_UPDATE" ->
  node m = Some n ->
  socket n = Some frames ->
  updateVoiceState JSON_stringify data m
  = (Ok tt,
     set_node (Some {| node_options := node_options n;
                       socket := Some (frames ++ [JSON_stringify data])%list;
                       connect_calls := connect_calls n |}) m).
Proof.
  intros Ht Htag Hn Hs.
  destruct (tagged_is_object data tag Ht) as (o & -> & Ho).
  unfold updateVoiceState. cbn [truthy negb get_prop].
  unfold bind at 1, lift at 1. rewrite Ho.
  destruct Htag as [-> | ->]; cbn -[socket_send];
    unfold bind, ret;
    rewrite (socket_send_live _ m n frames Hn Hs); reflexivity.
Qed.

Lemma updateVoiceState_forwards_once_witness :
  updateVoiceState tag_only voice_state_event doc_manager
  = (Ok tt,
     set_node (Some {| node_options := node_options doc_node_connected;
                       socket := Some ([] ++ [tag_only voice_state_event])%list;
                       connect_calls := connect_calls doc_node_connected |})
       doc_manager).
Proof.
  apply (updateVoiceState_forwards_once tag_only voice_state_event
           "VOICE_STATE_UPDATE" doc_manager doc_node_connected []).
  - reflexivity.
  - left. reflexivity.
  - reflexivity.
  - reflexivity.
Defined.

(** Before the socket exists the forwarder throws instead of writing. *)
Lemma updateVoiceState_null_socket :
  exists e,
    updateVoiceState tag_only voice_state_event (new_Manager doc_options)
    = (Throw e, new_Manager doc_options).
Proof. eexists. reflexivity. Qed.

Lemma includes_voice_tags (t : value) :
  includes voice_tags (js_or t (VStr "")) = true ->
  t = VStr "VOICE_SERVER_UPDATE" \/ t = VStr "VOICE_STATE_UPDATE".
Proof.
  unfold js_or. destruct (truthy t) eqn:Htr; [|cbn; discriminate].
  unfold includes, voice_tags. cbn [existsb]. rewrite orb_false_r.
  intros H. apply orb_true_iff in H.
  destruct t; cbn [strict_eq_str] in H; try (destruct H; discriminate).
  destruct H as [H|H]; apply String.eqb_eq in H; subst; auto.
Qed.

(** C8: an event whose [t] is neither voice tag (absent, not a string, or
    the event itself missing) makes [updateVoiceState] return at once:
    nothing is written and no field of the manager changes. *)
Theorem updateVoiceState_ignores_other_events
    (JSON_stringify : value -> string) (data : value) (m : Manager) :
  get_prop data "t" <> Ok (VStr "VOICE_SERVER_UPDATE") ->
  get_prop data "t" <> Ok (VStr "VOICE_STATE_UPDATE") ->
  updateVoiceState JSON_stringify data m = (Ok tt, m).
Proof.
  intros Hserver Hstate. unfold updateVoiceState.
  destruct (truthy data) eqn:Htr; cbn [negb]; [|reflexivity].
  assert (exists t, get_prop data "t" = Ok t) as [t Ht].
  { destruct data; cbn in Htr |- *; try discriminate; eauto. }
  unfold bind at 1, lift at 1. rewrite Ht.
  destruct (includes voice_tags (js_or t (VStr ""))) eqn:Hinc;
    cbn [negb]; [|reflexivity].
  apply includes_voice_tags in Hinc. rewrite Ht in Hserver, Hstate.
  destruct Hinc; subst t; contradiction.
Qed.

Lemma updateVoiceState_ignores_other_events_witness :
  updateVoiceState tag_only guild_create_event doc_manager
  = (Ok tt, doc_manager)
  /\ updateVoiceState tag_only VUndefined doc_manager = (Ok tt, doc_manager).
Proof.
  split.
  - apply (updateVoiceState_ignores_other_events tag_only guild_create_event
             doc_manager); discriminate.
  - apply (updateVoiceState_ignores_other_events tag_only VUndefined
             doc_manager); discriminate.
Defined.

(** * Further properties *)

(** ** Track normalisation and the resolver *)

(** X1: normalising a track that was already normalised only replaces the
    requester: building from the output of [buildTrackData] gives what
    building from the original track gives. *)
Theorem buildTrackData_again (data r1 r2 t1 : value) :
  buildTrackData data r1 = Ok t1 ->
  buildTrackData t1 r2 = buildTrackData data r2.
Proof.
  unfold buildTrackData at 1 3.
  repeat (match goal with
          | |- context [get_prop data ?k] => destruct (get_prop data k)
          end; cbn [rbind]); try discriminate.
  intros H. injection H as <-. reflexivity.
Qed.

Lemma buildTrackData_again_witness :
  buildTrackData
    (VObj [("url", VStr "u1"); ("title", VStr "t1"); ("thumbnail", VUndefined);
           ("duration", VNum 215); ("author", VStr "a1");
           ("created_at", VStr "2021-05-01"); ("extractor", VStr "youtube");
           ("requested_by", userA)])
    (VStr "userB")
  = buildTrackData track1 (VStr "userB").
Proof.
  apply (buildTrackData_again track1 userA (VStr "userB")). reflexivity.
Defined.

(** X2: [buildTrackData] throws exactly when the track is [undefined] or
    [null]; anything else, even a track with none of the fields, is built. *)
Theorem buildTrackData_throws_iff_nullish (data requester : value) :
  (exists e, buildTrackData data requester = Throw e) <-> nullish data = true.
Proof.
  split.
  - intros [e He]. destruct (nullish data) eqn:Hn; [reflexivity|].
    destruct (buildTrackData_defined data requester Hn) as [t Ht].
    rewrite Ht in He. discriminate.
  - destruct data; cbn; intros H; try discriminate; eauto.
Qed.

(** What the resolver returns once [res.results.length] could be read. *)
Lemma resolveTrackData_run (res requester results len : value) :
  get_prop res "results" = Ok results ->
  get_prop results "length" = Ok len ->
  resolveTrackData res requester
  = Ok (if truthy len
        then {| type := SEARCH_RESULT; playlist := None;
                tracks := results; requester := requester |}
        else {| type := NO_RESULT; playlist := None;
                tracks := VArr []; requester := requester |}).
Proof.
  intros Hres Hlen. unfold resolveTrackData.
  destruct (get_prop_total res "results" "identifier" _ Hres) as [ident Hid].
  rewrite Hres. cbn [rbind]. rewrite Hlen. cbn [rbind].
  destruct (truthy len); cbn [negb]; [|reflexivity].
  rewrite Hid. cbn [rbind]. rewrite identifier_test_always_true. reflexivity.
Qed.

Lemma nullish_throws (v : value) (k : string) :
  nullish v = true -> exists msg, get_prop v k = Throw (TypeError msg).
Proof. destruct v; cbn; intros H; try discriminate; eauto. Qed.

(** X3: the resolver throws exactly when the response, or its [results], is
    [undefined] or [null], for instance on an error body that has no
    [results]; every other response is resolved. *)
Theorem resolveTrackData_throws_iff (res requester : value) :
  (exists e, resolveTrackData res requester = Throw e)
  <-> (nullish res = true
       \/ exists results, get_prop res "results" = Ok results
                          /\ nullish results = true).
Proof.
  destruct (nullish res) eqn:Hres.
  - split; [auto|]. intros _.
    destruct (nullish_throws res "results" Hres) as [msg Hmsg].
    unfold resolveTrackData. rewrite Hmsg. cbn. eauto.
  - destruct (get_prop_defined res "results" Hres) as [results Hr].
    destruct (nullish results) eqn:Hnr.
    + split; [eauto|]. intros _.
      destruct (nullish_throws results "length" Hnr) as [msg Hmsg].
      unfold resolveTrackData. rewrite Hr. cbn [rbind]. rewrite Hmsg.
      cbn. eauto.
    + destruct (get_prop_defined results "length" Hnr) as [len Hlen].
      rewrite (resolveTrackData_run res requester results len Hr Hlen).
      split.
      * intros [e He]. discriminate.
      * intros [H | (results' & Hr' & Hn')]; [discriminate|].
        rewrite Hr in Hr'. injection Hr' as <-. congruence.
Qed.

(** X4: whatever the response, a result the resolver returns carries the
    caller's requester and no playlist metadata, and is either [NO_RESULT]
    with no tracks or [SEARCH_RESULT] with [res.results] itself as tracks;
    it is never a [PLAYLIST]. *)
Theorem resolveTrackData_result_shape (res who : value) (sr : SearchResult) :
  resolveTrackData res who = Ok sr ->
  playlist sr = None
  /\ requester sr = who
  /\ ((type sr = NO_RESULT /\ tracks sr = VArr [])
      \/ (type sr = SEARCH_RESULT /\ get_prop res "results" = Ok (tracks sr))).
Proof.
  intros H.
  destruct (get_prop res "results") as [results|e] eqn:Hr;
    [|unfold resolveTrackData in H; rewrite Hr in H; discriminate].
  destruct (get_prop results "length") as [len|e] eqn:Hlen;
    [|unfold resolveTrackData in H; rewrite Hr in H; cbn [rbind] in H;
      rewrite Hlen in H; discriminate].
  rewrite (resolveTrackData_run res who results len Hr Hlen) in H.
  injection H as <-. destruct (truthy len); cbn; auto.
Qed.

Lemma resolveTrackData_result_shape_witness :
  let sr := {| type := SEARCH_RESULT; playlist := None;
               tracks := VArr [playlist_entry]; requester := userA |} in
  playlist sr = None
  /\ requester sr = userA
  /\ ((type sr = NO_RESULT /\ tracks sr = VArr [])
      \/ (type sr = SEARCH_RESULT
          /\ get_prop playlist_response "results" = Ok (tracks sr))).
Proof.
  apply (resolveTrackData_result_shape playlist_response userA). reflexivity.
Defined.

(** ** Search *)


(** X6: a query without identifier, or with the empty string as identifier,
    is searched exactly like one with identifier ["ytsearch"]. *)
Theorem search_default_identifier
    (encodeURIComponent : string -> string)
    (makeRequest : Node -> string -> string -> result value)
    (text : string) (who : value) (m : Manager) :
  search encodeURIComponent makeRequest
         {| query := text; identifier := None |} who m
  = search encodeURIComponent makeRequest
           {| query := text; identifier := Some "ytsearch" |} who m
  /\ search encodeURIComponent makeRequest
            {| query := text; identifier := Some "" |} who m
     = search encodeURIComponent makeRequest
              {| query := text; identifier := Some "ytsearch" |} who m.
Proof. split; reflexivity. Qed.

(** ** The registry: [create] and [get] *)

(** X7: with a [Player] constructor that registers the instance it returns
    under the guild of its options, whatever [create] returns is what [get]
    finds for that guild afterwards. *)
Theorem get_finds_created
    (new_Player : PlayerOptions -> M ref) (opts : PlayerOptions)
    (m m' : Manager) (p : ref) :
  (forall o m0 p0 m1,
      new_Player o m0 = (Ok p0, m1) -> players m1 !! guild o = Some p0) ->
  create new_Player opts m = (Ok p, m') ->
  get (guild opts) m' = (Ok (Some p), m').
Proof.
  intros Hreg Hcreate. unfold get. run_M.
  destruct (players m !! guild opts) as [p0|] eqn:Hg.
  - rewrite (create_existing new_Player opts m p0 Hg) in Hcreate.
    injection Hcreate as <- <-. rewrite Hg. reflexivity.
  - rewrite (create_absent new_Player opts m Hg) in Hcreate.
    rewrite (Hreg opts m p m' Hcreate). reflexivity.
Qed.

Lemma get_finds_created_witness :
  let opts := {| guild := "41771983423143937"; settings := [] |} in
  get (guild opts) (snd (create Player_constructor opts fresh_manager))
  = (Ok (Some (fresh (dom (heap fresh_manager)))),
     snd (create Player_constructor opts fresh_manager)).
Proof.
  apply (get_finds_created Player_constructor
           {| guild := "41771983423143937"; settings := [] |}
           fresh_manager).
  - intros o m0 p0 m1 H. rewrite Player_constructor_run in H.
    injection H as <- <-. cbn. apply lookup_insert_eq.
  - reflexivity.
Defined.

(** ** [destroyNode] and [init] *)

(** X8: [destroyNode] does not make the manager initialisable again.  With a
    [Node.destroy] that leaves the manager's [initiated] flag alone, an
    [init] after [init] and [destroyNode] returns without touching anything:
    the node is not connected a second time. *)
Theorem init_after_destroyNode_does_nothing
    (Node_destroy : Node -> M unit) (c1 c2 : value) (m : Manager) :
  (forall n m0, initiated (snd (Node_destroy n m0)) = initiated m0) ->
  fst (init c1 m) = Ok tt ->
  let destroyed := snd (destroyNode Node_destroy (snd (init c1 m))) in
  init c2 destroyed = (Ok tt, destroyed).
Proof.
  intros Hflag Hret destroyed. apply init_when_initiated.
  pose proof (init_returned_initiated c1 m Hret) as Hi.
  subst destroyed. unfold destroyNode. run_M.
  destruct (node (snd (init c1 m))) as [n|]; [|exact Hi].
  rewrite Hflag. exact Hi.
Qed.

Lemma init_after_destroyNode_does_nothing_witness :
  let destroyed :=
    snd (destroyNode close_socket
           (snd (init (VStr "266241948824764416") (new_Manager doc_options)))) in
  init (VStr "266241948824764416") destroyed = (Ok tt, destroyed).
Proof.
  apply (init_after_destroyNode_does_nothing close_socket
           (VStr "266241948824764416") (VStr "266241948824764416")
           (new_Manager doc_options)).
  - intros n m0. reflexivity.
  - reflexivity.
Defined.

(** After [init], [destroyNode] and [init] on the documented options the
    socket is still gone, and a voice event makes the forwarder throw. *)
Example voice_event_after_destroy :
  let destroyed := snd (destroyNode close_socket doc_manager) in
  let again := snd (init (VStr "266241948824764416") destroyed) in
  node again = Some {| node_options := VObj doc_node; socket := None;
                       connect_calls := 1 |}
  /\ exists e, fst (updateVoiceState tag_only voice_state_event again) = Throw e.
Proof. cbv zeta. split; [reflexivity|]. eexists. reflexivity. Qed.

(** X9: the first [init] call touches the node, the flag and
    [options.clientID], and nothing else: the registry, the instances, the
    access token and every other option are as before, whether the call
    returns or throws. *)
Theorem init_keeps_registry_and_other_options
    (c : value) (m : Manager) (k : string) :
  k <> "clientID" ->
  players (snd (init c m)) = players m
  /\ heap (snd (init c m)) = heap m
  /\ access_token (snd (init c m)) = access_token m
  /\ obj_get (options (snd (init c m))) k = obj_get (options m) k.
Proof.
  intros Hk. unfold init, node_connect. run_M.
  destruct (initiated m); cbn [negb]; [auto|].
  destruct (truthy c); cbn; destruct (node m); cbn; repeat split;
    try reflexivity; apply obj_get_obj_set_ne; congruence.
Qed.

Lemma init_keeps_registry_and_other_options_witness :
  let m := new_Manager doc_options in
  let c := VStr "266241948824764416" in
  players (snd (init c m)) = players m
  /\ heap (snd (init c m)) = heap m
  /\ access_token (snd (init c m)) = access_token m
  /\ obj_get (options (snd (init c m))) "send" = obj_get (options m) "send".
Proof.
  apply (init_keeps_registry_and_other_options
           (VStr "266241948824764416") (new_Manager doc_options) "send").
  discriminate.
Defined.

(** X10: an [init] that throws for want of a node has already stored a
    truthy client id: the assignment comes before the call on the node, and
    the manager stays uninitiated. *)
Theorem init_without_node_stores_clientID (c : value) (m : Manager) :
  initiated m = false ->
  node m = None ->
  truthy c = true ->
  (exists msg, fst (init c m) = Throw (TypeError msg))
  /\ obj_get (options (snd (init c m))) "clientID" = c
  /\ initiated (snd (init c m)) = false
  /\ node (snd (init c m)) = None.
Proof.
  intros Hi Hn Hc. unfold init, node_connect. run_M.
  rewrite Hi, Hc. cbn. rewrite Hn. cbn.
  repeat split; eauto using obj_get_obj_set_eq.
Qed.

Lemma init_without_node_stores_clientID_witness :
  let m := new_Manager null_node_options in
  let c := VStr "266241948824764416" in
  (exists msg, fst (init c m) = Throw (TypeError msg))
  /\ obj_get (options (snd (init c m))) "clientID" = c
  /\ initiated (snd (init c m)) = false
  /\ node (snd (init c m)) = None.
Proof.
  apply (init_without_node_stores_clientID
           (VStr "266241948824764416") (new_Manager null_node_options));
    reflexivity.
Defined.

(** ** Construction *)

(** X11: every option other than [node] is stored by the constructor as the
    caller gave it, and an option the caller did not give stays absent. *)
Theorem constructor_keeps_other_options (opts : object) (k : string) :
  NoDup opts.*1 ->
  k <> "node" ->
  obj_get (options (new_Manager opts)) k = obj_get opts k.
Proof.
  intros Hnd Hk. rewrite constructor_options.
  rewrite (obj_get_spread _ opts k Hnd).
  destruct (has_own opts k) eqn:Hown; [reflexivity|].
  rewrite (obj_get_absent opts k Hown). cbn [obj_get].
  apply String.eqb_neq in Hk. rewrite String.eqb_sym, Hk. reflexivity.
Qed.

Lemma constructor_keeps_other_options_witness :
  obj_get (options (new_Manager doc_options)) "send"
  = obj_get doc_options "send".
Proof.
  apply (constructor_keeps_other_options doc_options "send").
  - apply (bool_decide_unpack _). vm_compute. reflexivity.
  - discriminate.
Defined.

(** With a falsy [node] option no [Node] is constructed. *)
Lemma new_Manager_falsy_node (opts : object) :
  NoDup opts.*1 ->
  has_own opts "node" = true ->
  truthy (obj_get opts "node") = false ->
  node (new_Manager opts) = None.
Proof.
  intros Hnd Hown Hfalsy.
  unfold new_Manager, constructor, bind, modify, this, when.
  cbn [fst snd options set_options].
  rewrite (obj_get_spread _ opts "node" Hnd), Hown, Hfalsy. reflexivity.
Qed.

Lemma init_all_stays_uninitiated (cs : list value) (m : Manager) :
  node m = None -> initiated m = false ->
  initiated (init_all cs m) = false.
Proof.
  revert m. induction cs as [|c cs IH]; intros m Hn Hi; cbn [init_all].
  - exact Hi.
  - destruct (init_without_node c m Hi Hn) as (e & _ & Hn' & Hi').
    apply IH; assumption.
Qed.

Lemma init_without_node_TypeError (c : value) (m : Manager) :
  initiated m = false -> node m = None ->
  exists msg, fst (init c m) = Throw (TypeError msg).
Proof.
  intros Hi Hn. unfold init, node_connect. run_M. rewrite Hi. cbn [negb].
  destruct (truthy c); cbn; rewrite Hn; cbn; eauto.
Qed.

(** X12: a manager constructed with a falsy [node] option ([null],
    [undefined], [false], [0] or the empty string under the key) has no
    node, and no number of [init] calls gives it one: every [init] throws a
    [TypeError] and leaves the manager uninitiated, and [search] and
    [destroyNode] throw a [TypeError] as well, leaving the manager as it
    is. *)
Theorem falsy_node_option_disables_manager
    (opts : object) (calls : list value) :
  NoDup opts.*1 ->
  has_own opts "node" = true ->
  truthy (obj_get opts "node") = false ->
  let m := init_all calls (new_Manager opts) in
  node m = None
  /\ initiated m = false
  /\ (forall c, exists msg, fst (init c m) = Throw (TypeError msg))
  /\ (forall enc makeRequest q who,
        exists msg, search enc makeRequest q who m = (Throw (TypeError msg), m))
  /\ (forall Node_destroy,
        exists msg, destroyNode Node_destroy m = (Throw (TypeError msg), m)).
Proof.
  intros Hnd Hown Hfalsy m.
  pose proof (new_Manager_falsy_node opts Hnd Hown Hfalsy) as Hn0.
  assert (node m = None) as Hn
    by (apply init_all_without_node; exact Hn0).
  assert (initiated m = false) as Hi
    by (apply init_all_stays_uninitiated;
        [exact Hn0 | apply new_Manager_not_initiated]).
  split; [exact Hn|]. split; [exact Hi|]. split; [|split].
  - intros c. apply init_without_node_TypeError; assumption.
  - intros enc makeRequest q who. unfold search. run_M. rewrite Hn. eauto.
  - intros Node_destroy. unfold destroyNode. run_M. rewrite Hn. eauto.
Qed.

Lemma falsy_node_option_disables_manager_witness :
  let m := init_all [VStr "266241948824764416"; VUndefined]
             (new_Manager null_node_options) in
  node m = None
  /\ initiated m = false
  /\ (forall c, exists msg, fst (init c m) = Throw (TypeError msg))
  /\ (forall enc makeRequest q who,
        exists msg, search enc makeRequest q who m = (Throw (TypeError msg), m))
  /\ (forall Node_destroy,
        exists msg, destroyNode Node_destroy m = (Throw (TypeError msg), m)).
Proof.
  apply (falsy_node_option_disables_manager null_node_options
           [VStr "266241948824764416"; VUndefined]).
  - apply (bool_decide_unpack _). vm_compute. reflexivity.
  - reflexivity.
  - reflexivity.
Defined.

(** ** Forwarding gateway events *)

Lemma bind_ret_unit (c : M unit) (m : Manager) :
  bind c (fun _ => ret tt) m = c m.
Proof. unfold bind, ret. destruct (c m) as [[[]|e] m']; reflexivity. Qed.

(** [updateVoiceState] writes for the voice events and returns at once for
    everything else. *)
Lemma updateVoiceState_run (JSON_stringify : value -> string)
    (data : value) (m : Manager) :
  updateVoiceState JSON_stringify data m
  = if is_voice_event data then socket_send (JSON_stringify data) m
    else (Ok tt, m).
Proof.
  destruct data as [| |b|z|s|l|o|f]; try reflexivity.
  - destruct b; reflexivity.
  - unfold updateVoiceState. cbn [truthy]. destruct (z =? 0); reflexivity.
  - unfold updateVoiceState. cbn [truthy].
    destruct (String.eqb s ""); reflexivity.
  - unfold updateVoiceState, is_voice_event.
    cbn [truthy negb get_prop]. unfold bind at 1, lift at 1.
    destruct (obj_get o "t") as [| |b|z|s|l|o'|f] eqn:Ht; try reflexivity.
    + destruct b; reflexivity.
    + unfold js_or. cbn [truthy]. destruct (z =? 0); reflexivity.
    + unfold js_or. cbn [truthy].
      destruct (String.eqb s "") eqn:E0.
      * apply String.eqb_eq in E0. subst s. reflexivity.
      * cbn [negb]. unfold includes, voice_tags.
        cbn [existsb strict_eq_str].
        destruct (String.eqb s "VOICE_SERVER_UPDATE") eqn:E1.
        -- apply String.eqb_eq in E1. subst s. cbn [orb negb].
           cbn [String.eqb Ascii.eqb Bool.eqb when].
           apply bind_ret_unit.
        -- destruct (String.eqb s "VOICE_STATE_UPDATE") eqn:E2;
             cbn [orb negb when]; reflexivity.
Qed.

Lemma with_frames_same (n : Node) (frames : list string) :
  socket n = Some frames -> with_frames n frames = n.
Proof. destruct n. cbn. intros ->. reflexivity. Qed.

Lemma set_node_same (m : Manager) (n : Node) :
  node m = Some n -> set_node (Some n) m = m.
Proof. destruct m. cbn. intros ->. reflexivity. Qed.

(** X13: on a manager whose node has a live socket, handing a whole stream
    of raw gateway events to [updateVoiceState] returns for every event and
    writes one frame per voice event and none for the others, in the order
    the events arrived; nothing but the socket changes. *)
Theorem forward_all_keeps_order
    (JSON_stringify : value -> string) (events : list value)
    (m : Manager) (n : Node) (frames : list string) :
  node m = Some n ->
  socket n = Some frames ->
  forward_all JSON_stringify events m
  = (Ok tt,
     set_node
       (Some (with_frames n
                (frames ++ map JSON_stringify
                             (List.filter is_voice_event events))%list))
       m).
Proof.
  revert m n frames.
  induction events as [|d rest IH]; intros m n frames Hn Hs;
    cbn [forward_all List.filter map].
  - unfold ret. rewrite app_nil_r, (with_frames_same n frames Hs).
    rewrite (set_node_same m n Hn). reflexivity.
  - unfold bind. rewrite updateVoiceState_run.
    destruct (is_voice_event d); cbn [map].
    + rewrite (socket_send_live _ m n frames Hn Hs).
      rewrite (IH _ (with_frames n (frames ++ [JSON_stringify d])%list)
                 (frames ++ [JSON_stringify d])%list);
        [|reflexivity|reflexivity].
      unfold with_frames, set_node. cbn. rewrite <- app_assoc. reflexivity.
    + apply IH; assumption.
Qed.

Lemma forward_all_keeps_order_witness :
  forward_all tag_only
    [voice_state_event; guild_create_event; VNull; voice_server_event]
    doc_manager
  = (Ok tt,
     set_node
       (Some (with_frames doc_node_connected
                ([] ++ map tag_only
                         (List.filter is_voice_event
                            [voice_state_event; guild_create_event; VNull;
                             voice_server_event]))%list))
       doc_manager).
Proof.
  apply (forward_all_keeps_order tag_only
           [voice_state_event; guild_create_event; VNull; voice_server_event]
           doc_manager doc_node_connected []); reflexivity.
Defined.

(** X14: a voice event that arrives while the manager has no node, or while
    the node's socket handle is still null, makes [updateVoiceState] throw a
    [TypeError]; nothing is written and nothing changes. *)
Theorem updateVoiceState_without_socket
    (JSON_stringify : value -> string) (data : value) (m : Manager) :
  is_voice_event data = true ->
  (node m = None \/ exists n, node m = Some n /\ socket n = None) ->
  exists msg,
    updateVoiceState JSON_stringify data m = (Throw (TypeError msg), m).
Proof.
  intros Hv Hsock. rewrite updateVoiceState_run, Hv.
  unfold socket_send. run_M.
  destruct Hsock as [Hn | (n & Hn & Hs)]; rewrite Hn; [eauto|].
  rewrite Hs. eauto.
Qed.

Lemma updateVoiceState_without_socket_witness :
  exists msg,
    updateVoiceState tag_only voice_server_event (new_Manager doc_options)
    = (Throw (TypeError msg), new_Manager doc_options).
Proof.
  apply (updateVoiceState_without_socket tag_only voice_server_event
           (new_Manager doc_options)).
  - reflexivity.
  - right. eexists. split; reflexivity.
Defined.
